(** * The Delta Lake connector of [pathway.io.deltalake]

    A shallow embedding of [python/pathway/io/deltalake/__init__.py]:
    the two entry points [read] and [write], the objects they hand to the
    engine, and the order in which they call their collaborators.

    Python exceptions become the left summand of a result, the calls that
    reach the engine are recorded in a trace that is threaded through both
    entry points, and a keyword argument with a default is an [Arg] that is
    either [Omitted] or [Given].  The [check_arg_types] decorator rejects
    ill-typed arguments before the body runs; here the types of the
    arguments do that. *)

From Stdlib Require Import ZArith List Bool.
From stdpp Require Import base option list strings gmap.

Local Open Scope string_scope.
Local Open Scope Z_scope.
Local Open Scope list_scope.

(** ** Values of the data model *)

Module Py.

(** A keyword argument of a [def]: left out by the caller, or supplied. *)
Inductive Arg (A : Type) : Type :=
| Omitted
| Given (a : A).
Arguments Omitted {A}.
Arguments Given {A} a.

(** The value the body sees: the [def]'s default when the caller left the
    argument out. *)
Definition or_default {A : Type} (dflt : A) (a : Arg A) : A :=
  match a with
  | Omitted => dflt
  | Given x => x
  end.

(** [s.startswith(p)] *)
Definition startswith (s p : string) : bool := String.prefix p s.

(** The exceptions that cross the connector. *)
Inductive Exn : Type :=
| ConfigurationError
| SchemaError
| EntitlementError (feature : string)
| ValueError (msg : string).

End Py.
Import Py.

Inductive Dtype : Type := DInt | DFloat | DStr | DBool | DAny.

Inductive Value : Type :=
| VNone
| VInt (z : Z)
| VStr (s : string)
| VBool (b : bool).

Inductive ConnectorMode : Type := Streaming | Static.

Inductive StorageKind : Type := Filesystem | ObjectStore.

Record ValueField : Type := mkValueField {
  vf_name : string;
  vf_type : Dtype
}.

(** The columns of a schema or of a table, in declaration order. *)
Definition Columns : Type := list (string * Dtype).

Definition column_names (cols : Columns) : list string := map fst cols.

(** [pw.io.s3.AwsS3Settings], with the fields [write]'s docstring names. *)
Record AwsS3Settings : Type := mkAwsS3Settings {
  bucket_name : option string;
  region : option string;
  access_key : option string;
  secret_access_key : option string;
  endpoint : option string
}.

(** [api.DataStorage(...)]. A keyword the caller does not pass is [None]. *)
Record DataStorage : Type := mkDataStorage {
  storage_type : string;
  path : string;
  mode : option ConnectorMode;
  persistent_id : option string;
  storage_options : option (gmap string string);
  min_commit_frequency : option Z
}.

(** [api.DataFormat(...)] *)
Record DataFormat : Type := mkDataFormat {
  format_type : string;
  key_field_names : option (list string);
  value_fields : list ValueField
}.

(** The keyword dictionary [read_schema] returns for [api.DataFormat]. *)
Record ApiSchema : Type := mkApiSchema {
  api_key_field_names : option (list string);
  api_value_fields : list ValueField
}.

Record DataSourceOptions : Type := mkDataSourceOptions {
  commit_duration_ms : option Z
}.

Record GenericDataSource : Type := mkGenericDataSource {
  datastorage : DataStorage;
  dataformat : DataFormat;
  schema : Columns;
  data_source_options : DataSourceOptions;
  datasource_name : string;
  append_only : bool
}.

Record GenericDataSink : Type := mkGenericDataSink {
  sink_datastorage : DataStorage;
  sink_dataformat : DataFormat;
  datasink_name : string
}.

(** Static rows that stand in for the real source in debug mode. *)
Definition DebugData : Type := list (gmap string Value).

(** A table of the engine: its columns and, for a table that comes out of a
    connector, the source it was built from. *)
Record Table : Type := mkTable {
  tbl_columns : Columns;
  tbl_source : option GenericDataSource;
  tbl_debug : option DebugData
}.

(** ** The trace of calls that leave the connector *)

Inductive Event : Type :=
| EvCheckEntitlements (feature : string)
| EvReadSchema (s : Columns)
| EvInternalConnectorMode (m : string)
| EvNewFromPath (uri : string)
| EvAsDeltalakeStorageOptions (s : AwsS3Settings)
| EvDataStorage (ds : DataStorage)
| EvDataFormat (df : DataFormat)
| EvTableFromDatasource (src : GenericDataSource) (dbg : option DebugData)
| EvTableTo (t : Table) (sink : GenericDataSink).

Definition World : Type := list Event.

(** The storage handles constructed so far. *)
Definition storages (w : World) : list DataStorage :=
  omap (fun ev => match ev with EvDataStorage ds => Some ds | _ => None end) w.

(** The format descriptors constructed so far. *)
Definition formats (w : World) : list DataFormat :=
  omap (fun ev => match ev with EvDataFormat df => Some df | _ => None end) w.

(** The sinks registered so far, each with the table it drains. *)
Definition sinks (w : World) : list (Table * GenericDataSink) :=
  omap (fun ev => match ev with EvTableTo t s => Some (t, s) | _ => None end) w.

(** The sources that were turned into tables so far. *)
Definition tables (w : World) : list GenericDataSource :=
  omap (fun ev => match ev with
                  | EvTableFromDatasource src _ => Some src
                  | _ => None
                  end) w.

(** The URIs for which credentials were looked up. *)
Definition discoveries (w : World) : list string :=
  omap (fun ev => match ev with EvNewFromPath u => Some u | _ => None end) w.

(** ** A state and exception monad over the trace *)

Definition M (A : Type) : Type := World -> (Exn + A) * World.

Global Instance M_ret : MRet M := fun A a w => (inr a, w).

Global Instance M_bind : MBind M := fun A B k m w =>
  match m w with
  | (inl e, w') => (inl e, w')
  | (inr a, w') => k a w'
  end.

(** Record a call, then return or raise what the callee answered. *)
Definition call {A : Type} (ev : Event) (r : Exn + A) : M A :=
  fun w => (r, w ++ [ev]).

(** ** The collaborators outside the connector *)

Record Env : Type := mkEnv {
  (** [pathway.internals.config._check_entitlements] *)
  check_entitlements : string -> Exn + unit;
  (** [pathway.io._utils.read_schema] with every optional argument [None] *)
  read_schema_of : Columns -> Exn + (Columns * ApiSchema);
  (** [pathway.io._utils.internal_connector_mode] *)
  connector_mode_of : string -> Exn + ConnectorMode;
  (** the credential discovery interface: the settings found for a URI *)
  discoverAmbientCredentials : string -> option AwsS3Settings;
  (** [AwsS3Settings.as_deltalake_storage_options] *)
  deltalake_storage_options_of : AwsS3Settings -> Exn + gmap string string
}.

(** ** Calls into the collaborators *)

Definition _check_entitlements (env : Env) (feature : string) : M unit :=
  call (EvCheckEntitlements feature) (check_entitlements env feature).

Definition read_schema (env : Env) (s : Columns) : M (Columns * ApiSchema) :=
  call (EvReadSchema s) (read_schema_of env s).

Definition internal_connector_mode (env : Env) (m : string) : M ConnectorMode :=
  call (EvInternalConnectorMode m) (connector_mode_of env m).

(** Modelled from the spec: [AwsS3Settings.new_from_path] lives in
    [pathway.io.s3], which is not part of the sources at hand.  Spec 4.1 and
    6: when no explicit credentials are given the resolver derives them
    through the discovery interface, whose answer is the discovered options
    or NotFound, and it fails with ConfigurationError when the credentials
    cannot be resolved. *)
Definition new_from_path (env : Env) (uri : string) : M AwsS3Settings :=
  call (EvNewFromPath uri)
       (match discoverAmbientCredentials env uri with
        | Some s => inr s
        | None => inl ConfigurationError
        end).

Definition as_deltalake_storage_options (env : Env) (s : AwsS3Settings)
  : M (gmap string string) :=
  call (EvAsDeltalakeStorageOptions s) (deltalake_storage_options_of env s).

(** Modelled from the spec: [api.DataStorage] is engine code, which is not
    part of the sources at hand.  Spec 3 and 4.1: a storage location is
    constructed once per invocation from the URI, the options map and the
    commit configuration, whose interval is an optional integer, and is
    passed on opaquely; the spec names no failure of the construction, and
    none is modelled: the event records the call with its arguments. *)
Definition new_DataStorage (ds : DataStorage) : M DataStorage :=
  call (EvDataStorage ds) (inr ds).

(** [api.DataFormat(...)] *)
Definition new_DataFormat (df : DataFormat) : M DataFormat :=
  call (EvDataFormat df) (inr df).

(** Modelled from the spec: [datasource.debug_datasource] lives in
    [pathway.internals.datasource], which is not part of the sources at
    hand.  Spec 9: the debug data is an alternate data source selected by
    the caller and never branched on inside the pipeline; it rides along
    with the table, and no refusal of it is modelled. *)
Definition debug_datasource (d : option DebugData) : option DebugData := d.

(** [table_from_datasource(source, debug_datasource=...)] *)
Definition table_from_datasource (src : GenericDataSource)
  (dbg : option DebugData) : M Table :=
  call (EvTableFromDatasource src dbg)
       (inr {| tbl_columns := schema src;
               tbl_source := Some src;
               tbl_debug := dbg |}).

(** [table.to(sink)] *)
Definition table_to (t : Table) (sink : GenericDataSink) : M unit :=
  call (EvTableTo t sink) (inr tt).

(** Lift a pure result into the monad without touching the trace. *)
Definition lift {A : Type} (r : Exn + A) : M A := fun w => (r, w).

(** ** The write-side value fields *)

Definition reserved_name (n : string) : bool :=
  String.eqb n "time" || String.eqb n "diff".

Definition metadata_fields : list ValueField :=
  [mkValueField "time" DInt; mkValueField "diff" DInt].

(** Modelled from the spec: [_format_output_value_fields] lives in
    [pathway.internals._io_helpers], which is not part of the sources at
    hand.  Spec 4.2, write direction: the value-field list equals the
    table's columns plus the two reserved metadata columns, and the
    construction fails with SchemaError if the table already contains a
    column literally named time or diff. *)
Definition _format_output_value_fields (table : Table)
  : Exn + list ValueField :=
  if existsb reserved_name (column_names (tbl_columns table))
  then inl SchemaError
  else inr (map (fun c => mkValueField (fst c) (snd c)) (tbl_columns table)
            ++ metadata_fields).

(** ** [pw.io.deltalake] *)

Definition S3_URI_PREFIX : string := "s3://".

(** The storage kind that the test on line 218 of [write] settles. *)
Definition storage_kind (uri : string) : StorageKind :=
  if startswith uri S3_URI_PREFIX then ObjectStore else Filesystem.

(** The storage kind as [write]'s docstring announces it: paths starting
    with [s3://] or [s3a://] are for S3 storage, all other paths use the
    filesystem. *)
Definition documented_storage_kind (uri : string) : StorageKind :=
  if startswith uri "s3://" || startswith uri "s3a://"
  then ObjectStore else Filesystem.

(** Lines 217-221 of [write]: the options handed to the storage. *)
Definition write_storage_options (env : Env) (uri : string)
  (s3_connection_settings : option AwsS3Settings) : M (gmap string string) :=
  if startswith uri S3_URI_PREFIX then
    s3_connection_settings ←
      match s3_connection_settings with
      | None => new_from_path env uri
      | Some s => mret s
      end;
    as_deltalake_storage_options env s3_connection_settings
  else mret ∅.

(** Lines 229-233 of [write]: the descriptor handed to the sink. *)
Definition write_data_format (table : Table) : Exn + DataFormat :=
  match _format_output_value_fields table with
  | inl e => inl e
  | inr fields => inr {| format_type := "identity";
                         key_field_names := None;
                         value_fields := fields |}
  end.

(** [write(table, uri, *, s3_connection_settings=None,
          min_commit_frequency=60_000)] *)
Definition write (env : Env) (table : Table) (uri : string)
  (s3_connection_settings : Arg (option AwsS3Settings))
  (min_commit_frequency : Arg (option Z)) : M unit :=
  let s3_connection_settings := or_default None s3_connection_settings in
  let min_commit_frequency := or_default (Some 60000) min_commit_frequency in
  _check_entitlements env "deltalake" ;;
  storage_options ← write_storage_options env uri s3_connection_settings;
  data_storage ← new_DataStorage
    {| storage_type := "deltalake";
       path := uri;
       mode := None;
       persistent_id := None;
       storage_options := Some storage_options;
       min_commit_frequency := min_commit_frequency |};
  data_format ← (df ← lift (write_data_format table); new_DataFormat df);
  table_to table
    {| sink_datastorage := data_storage;
       sink_dataformat := data_format;
       datasink_name := "deltalake" |}.

(** [read(uri, schema, *, mode="streaming", autocommit_duration_ms=1500,
         persistent_id=None, debug_data=None)] *)
Definition read (env : Env) (uri : string) (schema : Columns)
  (mode : Arg string) (autocommit_duration_ms : Arg (option Z))
  (persistent_id : Arg (option string))
  (debug_data : Arg (option DebugData)) : M Table :=
  let mode := or_default "streaming" mode in
  let autocommit_duration_ms := or_default (Some 1500) autocommit_duration_ms in
  let persistent_id := or_default None persistent_id in
  let debug_data := or_default None debug_data in
  _check_entitlements env "deltalake" ;;
  '(schema, api_schema) ← read_schema env schema;
  data_storage ←
    (m ← internal_connector_mode env mode;
     new_DataStorage
       {| storage_type := "deltalake";
          path := uri;
          mode := Some m;
          persistent_id := persistent_id;
          storage_options := None;
          min_commit_frequency := None |});
  data_format ← new_DataFormat
    {| format_type := "transparent";
       key_field_names := api_key_field_names api_schema;
       value_fields := api_value_fields api_schema |};
  let data_source_options :=
    {| commit_duration_ms := autocommit_duration_ms |} in
  table_from_datasource
    {| datastorage := data_storage;
       dataformat := data_format;
       schema := schema;
       data_source_options := data_source_options;
       datasource_name := "deltalake";
       append_only := true |}
    (debug_datasource debug_data).

(** ** Concrete environments and tables to run the connector on *)

Module Fixtures.

(** Present fields of the settings, under the names the storage client
    reads. *)
Definition options_of_settings (s : AwsS3Settings) : gmap string string :=
  list_to_map
    (omap (fun kv => match snd kv with
                     | Some v => Some (fst kv, v)
                     | None => None
                     end)
          [("AWS_BUCKET_NAME", bucket_name s);
           ("AWS_REGION", region s);
           ("AWS_ACCESS_KEY_ID", access_key s);
           ("AWS_SECRET_ACCESS_KEY", secret_access_key s);
           ("AWS_ENDPOINT_URL", endpoint s)]).

Definition schema_fields (cols : Columns) : list ValueField :=
  map (fun c => mkValueField (fst c) (snd c)) cols.

Definition mode_of_string (m : string) : Exn + ConnectorMode :=
  if String.eqb m "streaming" then inr Streaming
  else if String.eqb m "static" then inr Static
  else inl (ValueError m).

(** A licensed installation on a machine that holds no S3 credentials. *)
Definition licensed : Env :=
  {| check_entitlements := fun _ => inr tt;
     read_schema_of := fun cols =>
       inr (cols, {| api_key_field_names := None;
                     api_value_fields := schema_fields cols |});
     connector_mode_of := mode_of_string;
     discoverAmbientCredentials := fun _ => None;
     deltalake_storage_options_of := fun s => inr (options_of_settings s) |}.

(** The same installation without the deltalake entitlement. *)
Definition unlicensed : Env :=
  {| check_entitlements := fun f => inl (EntitlementError f);
     read_schema_of := read_schema_of licensed;
     connector_mode_of := connector_mode_of licensed;
     discoverAmbientCredentials := discoverAmbientCredentials licensed;
     deltalake_storage_options_of := deltalake_storage_options_of licensed |}.

Definition eu_west_3 : AwsS3Settings :=
  {| bucket_name := Some "logs";
     region := Some "eu-west-3";
     access_key := Some "AKIA";
     secret_access_key := Some "hunter2";
     endpoint := None |}.

Definition KVSchema : Columns := [("key", DStr); ("value", DStr)].

Definition access_log : Table :=
  {| tbl_columns := KVSchema; tbl_source := None; tbl_debug := None |}.


Definition clocked : Table :=
  {| tbl_columns := [("key", DStr); ("time", DInt)];
     tbl_source := None; tbl_debug := None |}.

End Fixtures.

Import Fixtures.

(** ** The read path of the engine *)

Record ChangeEvent : Type := mkChangeEvent {
  key : option (list Byte.byte);
  values : gmap string Value;
  time : Z;
  diff : Z
}.

(** Modelled from the spec: the reader that turns the rows of the log into
    events is engine code, which is not part of the sources at hand.  Spec 3
    and 4.3: on the read path each newly visible row is wrapped as a
    ChangeEvent with diff = +1, in the order the log presents the rows;
    deletions are never read back. *)
Definition ingest (commits : list (Z * list (gmap string Value)))
  : list ChangeEvent :=
  flat_map (fun c => map (fun row => {| key := None;
                                        values := row;
                                        time := fst c;
                                        diff := 1 |}) (snd c)) commits.

(** Modelled from the spec: the pacing of flushes and commits is engine
    code, which is not part of the sources at hand.  Spec 3 and 4.4: at a
    batch boundary the batch goes out when at least the configured interval
    has elapsed since the previous one, and when the interval is absent or
    zero every finalized batch goes out immediately. *)
Definition commit_due (interval_ms : option Z) (elapsed_ms : Z) : bool :=
  match interval_ms with
  | None => true
  | Some ms => (ms =? 0) || (ms <=? elapsed_ms)
  end.

(** ** Running the connector *)

Definition entitled (env : Env) : Prop :=
  check_entitlements env "deltalake" = inr tt.

(** The handle [write] builds for a URI once the options are known. *)
Definition written_storage (uri : string) (opts : gmap string string)
  (min_commit_frequency : Arg (option Z)) : DataStorage :=
  {| storage_type := "deltalake";
     path := uri;
     mode := None;
     persistent_id := None;
     storage_options := Some opts;
     min_commit_frequency := or_default (Some 60000) min_commit_frequency |}.

(** The handle [read] builds for a URI. *)
Definition read_storage (uri : string) (m : ConnectorMode)
  (persistent_id : Arg (option string)) : DataStorage :=
  {| storage_type := "deltalake";
     path := uri;
     mode := Some m;
     persistent_id := or_default None persistent_id;
     storage_options := None;
     min_commit_frequency := None |}.

(** The source [read] hands to [table_from_datasource]. *)
Definition read_source (uri : string) (schema : Columns) (api : ApiSchema)
  (m : ConnectorMode) (autocommit_duration_ms : Arg (option Z))
  (persistent_id : Arg (option string)) : GenericDataSource :=
  {| datastorage := read_storage uri m persistent_id;
     dataformat := {| format_type := "transparent";
                      key_field_names := api_key_field_names api;
                      value_fields := api_value_fields api |};
     schema := schema;
     data_source_options :=
       {| commit_duration_ms :=
            or_default (Some 1500) autocommit_duration_ms |};
     datasource_name := "deltalake";
     append_only := true |}.

(** The sink [write] registers once the handle and the descriptor exist. *)
Definition written_sink (uri : string) (opts : gmap string string)
  (min_commit_frequency : Arg (option Z)) (df : DataFormat)
  : GenericDataSink :=
  {| sink_datastorage := written_storage uri opts min_commit_frequency;
     sink_dataformat := df;
     datasink_name := "deltalake" |}.

(** The table [read] returns. *)
Definition read_table (uri : string) (schema : Columns) (api : ApiSchema)
  (m : ConnectorMode) (autocommit_duration_ms : Arg (option Z))
  (persistent_id : Arg (option string)) (debug_data : Arg (option DebugData))
  : Table :=
  {| tbl_columns := schema;
     tbl_source :=
       Some (read_source uri schema api m autocommit_duration_ms
               persistent_id);
     tbl_debug := or_default None debug_data |}.

(** The features whose entitlement was checked so far. *)
Definition entitlement_checks (w : World) : list string :=
  omap (fun ev => match ev with
                  | EvCheckEntitlements f => Some f
                  | _ => None
                  end) w.

(** The mode strings handed to [internal_connector_mode] so far. *)
Definition mode_queries (w : World) : list string :=
  omap (fun ev => match ev with
                  | EvInternalConnectorMode m => Some m
                  | _ => None
                  end) w.

(** The settings that were asked for their storage options so far. *)
Definition option_requests (w : World) : list AwsS3Settings :=
  omap (fun ev => match ev with
                  | EvAsDeltalakeStorageOptions s => Some s
                  | _ => None
                  end) w.

Ltac run :=
  unfold write, read, write_storage_options, _check_entitlements, read_schema,
    internal_connector_mode, new_from_path, as_deltalake_storage_options,
    new_DataStorage, new_DataFormat, table_from_datasource, table_to,
    debug_datasource, lift, call, mbind, M_bind, mret, M_ret;
  cbn beta iota.

Lemma storages_app (w1 w2 : World) :
  storages (w1 ++ w2) = storages w1 ++ storages w2.
Proof. apply omap_app. Qed.

Lemma formats_app (w1 w2 : World) :
  formats (w1 ++ w2) = formats w1 ++ formats w2.
Proof. apply omap_app. Qed.

Lemma sinks_app (w1 w2 : World) : sinks (w1 ++ w2) = sinks w1 ++ sinks w2.
Proof. apply omap_app. Qed.

Lemma tables_app (w1 w2 : World) : tables (w1 ++ w2) = tables w1 ++ tables w2.
Proof. apply omap_app. Qed.

Lemma discoveries_app (w1 w2 : World) :
  discoveries (w1 ++ w2) = discoveries w1 ++ discoveries w2.
Proof. apply omap_app. Qed.

Ltac trace_simpl :=
  cbn [fst snd];
  rewrite ?storages_app, ?formats_app, ?sinks_app, ?tables_app,
    ?discoveries_app; cbn; rewrite ?app_nil_r, <- ?app_assoc; cbn.

(** The options of a URI that is not taken for S3: none, and no call. *)
Lemma write_storage_options_filesystem env uri s w :
  startswith uri S3_URI_PREFIX = false ->
  write_storage_options env uri s w = (inr ∅, w).
Proof. intros Hfs. run. rewrite Hfs. reflexivity. Qed.

(** The options of an S3 URI with explicit settings. *)
Lemma write_storage_options_explicit env uri s w :
  startswith uri S3_URI_PREFIX = true ->
  write_storage_options env uri (Some s) w =
    (deltalake_storage_options_of env s,
     w ++ [EvAsDeltalakeStorageOptions s]).
Proof. intros Hs3. run. rewrite Hs3. reflexivity. Qed.

(** The options of an S3 URI without explicit settings. *)
Lemma write_storage_options_discovered env uri w :
  startswith uri S3_URI_PREFIX = true ->
  write_storage_options env uri None w =
    match discoverAmbientCredentials env uri with
    | None => (inl ConfigurationError, w ++ [EvNewFromPath uri])
    | Some s => (deltalake_storage_options_of env s,
                 w ++ [EvNewFromPath uri; EvAsDeltalakeStorageOptions s])
    end.
Proof.
  intros Hs3. run. rewrite Hs3.
  destruct (discoverAmbientCredentials env uri); [|reflexivity].
  now rewrite <- app_assoc.
Qed.

(** A run of [write] that passes the entitlement check, step by step. *)
Lemma write_entitled env table uri s f w :
  entitled env ->
  write env table uri s f w =
    match write_storage_options env uri (or_default None s)
            (w ++ [EvCheckEntitlements "deltalake"]) with
    | (inl e, w1) => (inl e, w1)
    | (inr opts, w1) =>
        let ds := written_storage uri opts f in
        match write_data_format table with
        | inl e => (inl e, w1 ++ [EvDataStorage ds])
        | inr df =>
            (inr tt,
             w1 ++ [EvDataStorage ds; EvDataFormat df;
                    EvTableTo table {| sink_datastorage := ds;
                                       sink_dataformat := df;
                                       datasink_name := "deltalake" |}])
        end
    end.
Proof.
  intros Hent. unfold write at 1, _check_entitlements, call.
  unfold mbind at 1, M_bind. rewrite Hent.
  unfold mbind at 1, M_bind.
  destruct (write_storage_options _ _ _ _) as [[e|opts] w1]; [reflexivity|].
  run. unfold written_storage.
  destruct (write_data_format table) as [e|df]; [reflexivity|].
  now rewrite <- !app_assoc.
Qed.

(** A run of [write] that fails the entitlement check. *)
Lemma write_not_entitled env table uri s f w e :
  check_entitlements env "deltalake" = inl e ->
  write env table uri s f w = (inl e, w ++ [EvCheckEntitlements "deltalake"]).
Proof. intros Hent. run. rewrite Hent. reflexivity. Qed.

(** Whatever [write_storage_options] does, its answer does not depend on
    the trace so far, it only adds to the trace, and neither a storage
    handle nor a descriptor nor a sink comes out of it. *)
Lemma write_storage_options_frame env uri s w :
  let r0 := write_storage_options env uri s [] in
  write_storage_options env uri s w = (r0.1, w ++ r0.2) /\
  storages r0.2 = [] /\ formats r0.2 = [] /\ sinks r0.2 = [].
Proof.
  cbn zeta. destruct (startswith uri S3_URI_PREFIX) eqn:Hk.
  - destruct s as [s|].
    + rewrite !write_storage_options_explicit by done. done.
    + rewrite !write_storage_options_discovered by done.
      destruct (discoverAmbientCredentials env uri); done.
  - rewrite !write_storage_options_filesystem by done.
    cbn. now rewrite app_nil_r.
Qed.

(** A run of [read] that fails the entitlement check. *)
Lemma read_not_entitled env uri schema mode ac pid dbg w e :
  check_entitlements env "deltalake" = inl e ->
  read env uri schema mode ac pid dbg w =
    (inl e, w ++ [EvCheckEntitlements "deltalake"]).
Proof. intros Hent. run. rewrite Hent. reflexivity. Qed.

(** A run of [read] on an input every collaborator accepts. *)
Lemma read_entitled env uri schema mode ac pid dbg w schema' api m :
  entitled env ->
  read_schema_of env schema = inr (schema', api) ->
  connector_mode_of env (or_default "streaming" mode) = inr m ->
  read env uri schema mode ac pid dbg w =
    let src := read_source uri schema' api m ac pid in
    (inr {| tbl_columns := schema';
            tbl_source := Some src;
            tbl_debug := or_default None dbg |},
     w ++ [EvCheckEntitlements "deltalake";
           EvReadSchema schema;
           EvInternalConnectorMode (or_default "streaming" mode);
           EvDataStorage (datastorage src);
           EvDataFormat (dataformat src);
           EvTableFromDatasource src (or_default None dbg)]).
Proof.
  intros Hent Hschema Hmode. run.
  rewrite Hent, Hschema. cbn. rewrite Hmode. cbn.
  now rewrite <- !app_assoc.
Qed.

(** Every run of [read] starts with the entitlement check. *)
Lemma read_checks_first env uri schema mode ac pid dbg w :
  exists rest,
    (read env uri schema mode ac pid dbg w).2 =
      w ++ EvCheckEntitlements "deltalake" :: rest.
Proof.
  run. destruct (check_entitlements env "deltalake") as [e|[]]; [by exists []|].
  destruct (read_schema_of env schema) as [e|[schema' api]]; cbn;
    [eexists; by rewrite <- app_assoc|].
  destruct (connector_mode_of env _) as [e|m]; cbn;
    eexists; by rewrite <- !app_assoc.
Qed.

(** Every run of [write] starts with the entitlement check. *)
Lemma write_checks_first env table uri s f w :
  exists rest,
    (write env table uri s f w).2 =
      w ++ EvCheckEntitlements "deltalake" :: rest.
Proof.
  destruct (check_entitlements env "deltalake") as [e|[]] eqn:Hent.
  - rewrite (write_not_entitled _ _ _ _ _ _ _ Hent). by exists [].
  - rewrite (write_entitled _ _ _ _ _ _ Hent).
    destruct (write_storage_options_frame env uri (or_default None s)
                (w ++ [EvCheckEntitlements "deltalake"])) as (-> & _).
    destruct (write_storage_options _ _ _ []) as [[e|opts] w1]; cbn.
    + eexists. by rewrite <- app_assoc.
    + destruct (write_data_format table); cbn;
        eexists; by rewrite <- !app_assoc.
Qed.

(** A name is reserved exactly when it is [time] or [diff]. *)
Lemma reserved_name_spec n :
  reserved_name n = true <-> n = "time" \/ n = "diff".
Proof.
  unfold reserved_name. rewrite orb_true_iff, !String.eqb_eq. tauto.
Qed.

(** The collision test of the value fields, in terms of membership. *)
Lemma reserved_collision cols :
  existsb reserved_name (column_names cols) = true <->
  In "time" (column_names cols) \/ In "diff" (column_names cols).
Proof.
  rewrite existsb_exists. split.
  - intros (n & Hin & Hres). apply reserved_name_spec in Hres as [-> | ->]; auto.
  - intros [H|H]; eexists; (split; [exact H|]); reflexivity.
Qed.

(** ** Storage classification *)

(** The kind [write] settles on is exactly the [s3://] prefix test. *)
Lemma storage_kind_object_store uri :
  storage_kind uri = ObjectStore <-> startswith uri "s3://" = true.
Proof.
  unfold storage_kind, S3_URI_PREFIX.
  destruct (startswith uri "s3://"); split; congruence.
Qed.

(** C1: the write operation should classify a URI as ObjectStore exactly when
    it begins with [s3://] or with [s3a://], as its docstring says.  The code
    tests the [s3://] prefix only: on [s3a://logs/access-log/] the documented
    kind is ObjectStore, the code settles on Filesystem, and the explicit
    settings of the caller never reach the storage handle, whereas the same
    call on [s3://logs/access-log/] passes them on. *)
Theorem write_takes_s3a_uri_for_filesystem :
  documented_storage_kind "s3a://logs/access-log/" = ObjectStore /\
  storage_kind "s3a://logs/access-log/" = Filesystem /\
  storages (write licensed access_log "s3a://logs/access-log/"
              (Given (Some eu_west_3)) Omitted []).2 =
    [written_storage "s3a://logs/access-log/" ∅ Omitted] /\
  storages (write licensed access_log "s3://logs/access-log/"
              (Given (Some eu_west_3)) Omitted []).2 =
    [written_storage "s3://logs/access-log/"
       (options_of_settings eu_west_3) Omitted].
Proof.
  repeat split; vm_compute; reflexivity.
Qed.

(** ** The write-side format descriptor *)

(** C2: for every table with a column literally named [time] or [diff],
    constructing the write-side format descriptor fails with SchemaError,
    whatever the other columns are; a [write] of such a table never builds a
    descriptor and never registers a sink, and it raises SchemaError as soon
    as the entitlement check and the storage options go through. *)
Theorem reserved_column_rejected table :
  In "time" (column_names (tbl_columns table)) \/
  In "diff" (column_names (tbl_columns table)) ->
  write_data_format table = inl SchemaError /\
  forall env uri s f w,
    let r := write env table uri s f w in
    r.1 <> inr tt /\ formats r.2 = formats w /\ sinks r.2 = sinks w /\
    (entitled env ->
     forall opts,
       (write_storage_options env uri (or_default None s) []).1 = inr opts ->
       r.1 = inl SchemaError).
Proof.
  intros Hcol.
  assert (Hfmt : write_data_format table = inl SchemaError).
  { unfold write_data_format, _format_output_value_fields.
    apply reserved_collision in Hcol. now rewrite Hcol. }
  split; [exact Hfmt|]. intros env uri s f w r. subst r.
  destruct (check_entitlements env "deltalake") as [e|[]] eqn:Hent.
  - rewrite (write_not_entitled _ _ _ _ _ _ _ Hent). cbn.
    repeat split; try done; try (trace_simpl; done).
    unfold entitled. congruence.
  - rewrite (write_entitled _ _ _ _ _ _ Hent), Hfmt.
    destruct (write_storage_options_frame env uri (or_default None s)
                (w ++ [EvCheckEntitlements "deltalake"]))
      as (-> & _ & Hf & Hs).
    destruct (write_storage_options _ _ _ []) as [[e|opts] w1];
      cbn [fst snd] in *;
      repeat split; try done;
      trace_simpl; rewrite ?Hf, ?Hs; trace_simpl; done.
Qed.

Lemma reserved_column_rejected_witness :
  (In "time" (column_names (tbl_columns clocked)) \/
   In "diff" (column_names (tbl_columns clocked))) /\
  write_data_format clocked = inl SchemaError /\
  (write licensed clocked "./logs/access-log" Omitted Omitted []).1 =
    inl SchemaError.
Proof.
  assert (H : In "time" (column_names (tbl_columns clocked)) \/
              In "diff" (column_names (tbl_columns clocked))).
  { left. simpl. right. left. reflexivity. }
  split; [exact H|].
  destruct (reserved_column_rejected clocked H) as [Hfmt Hrun].
  split; [exact Hfmt|].
  destruct (Hrun licensed "./logs/access-log" Omitted Omitted [])
    as (_ & _ & _ & Hraise).
  apply (Hraise eq_refl ∅). reflexivity.
Defined.

(** The descriptor of a table, whenever there is one. *)
Lemma write_data_format_inv table df :
  write_data_format table = inr df ->
  df = {| format_type := "identity";
          key_field_names := None;
          value_fields :=
            map (fun c => mkValueField c.1 c.2) (tbl_columns table)
            ++ [mkValueField "time" DInt; mkValueField "diff" DInt] |}.
Proof.
  unfold write_data_format, _format_output_value_fields.
  destruct (existsb reserved_name (column_names (tbl_columns table)));
    [discriminate|].
  intros [= <-]. reflexivity.
Qed.

(** The descriptor of a table that uses no reserved name. *)
Lemma write_data_format_plain table :
  ~ In "time" (column_names (tbl_columns table)) ->
  ~ In "diff" (column_names (tbl_columns table)) ->
  exists df, write_data_format table = inr df.
Proof.
  intros Htime Hdiff.
  unfold write_data_format, _format_output_value_fields.
  destruct (existsb reserved_name (column_names (tbl_columns table))) eqn:Hres.
  - apply reserved_collision in Hres. tauto.
  - eauto.
Qed.

(** C5: for every table, every format descriptor that [write] builds
    declares no key fields and a value-field list equal to the table's
    columns followed by the two reserved metadata columns [time] and [diff];
    for a table that does not itself use a reserved name, a [write] that
    passes the entitlement check and resolves its storage options builds
    exactly this descriptor and registers the sink with it. *)
Theorem write_format_descriptor table env uri s f w :
  let r := write env table uri s f w in
  let df := {| format_type := "identity";
               key_field_names := None;
               value_fields :=
                 map (fun c => mkValueField c.1 c.2) (tbl_columns table)
                 ++ [mkValueField "time" DInt; mkValueField "diff" DInt] |} in
  (exists built,
     formats r.2 = formats w ++ built /\ Forall (fun d => d = df) built) /\
  (~ In "time" (column_names (tbl_columns table)) ->
   ~ In "diff" (column_names (tbl_columns table)) ->
   entitled env ->
   forall opts,
     (write_storage_options env uri (or_default None s) []).1 = inr opts ->
     formats r.2 = formats w ++ [df] /\
     sinks r.2 = sinks w ++ [(table, written_sink uri opts f df)]).
Proof.
  cbn zeta. split.
  - destruct (check_entitlements env "deltalake") as [e|[]] eqn:Hent.
    { rewrite (write_not_entitled _ _ _ _ _ _ _ Hent).
      exists []. split; [trace_simpl; done|constructor]. }
    rewrite (write_entitled _ _ _ _ _ _ Hent).
    destruct (write_storage_options_frame env uri (or_default None s)
                (w ++ [EvCheckEntitlements "deltalake"]))
      as (-> & _ & Hf & _).
    destruct (write_storage_options _ _ _ []) as [[e|opts] w1];
      cbn [fst snd] in *.
    { exists []. split; [|constructor].
      trace_simpl; rewrite Hf; trace_simpl; done. }
    destruct (write_data_format table) as [e|df] eqn:Hdf; cbn zeta.
    { exists []. split; [|constructor].
      trace_simpl; rewrite Hf; trace_simpl; done. }
    apply write_data_format_inv in Hdf. subst df.
    eexists [_]. split; [|constructor; [reflexivity|constructor]].
    trace_simpl; rewrite Hf; trace_simpl; reflexivity.
  - intros Htime Hdiff Hent opts Hopts.
    destruct (write_data_format_plain table Htime Hdiff) as [df Hdf].
    pose proof (write_data_format_inv _ _ Hdf) as Heq.
    rewrite (write_entitled _ _ _ _ _ _ Hent).
    destruct (write_storage_options_frame env uri (or_default None s)
                (w ++ [EvCheckEntitlements "deltalake"]))
      as (-> & _ & Hf & Hs).
    rewrite Hopts, Hdf. cbn zeta. subst df.
    split; trace_simpl; rewrite ?Hf, ?Hs; trace_simpl; reflexivity.
Qed.

Lemma write_format_descriptor_witness :
  ~ In "time" (column_names (tbl_columns access_log)) /\
  ~ In "diff" (column_names (tbl_columns access_log)) /\
  entitled licensed /\
  formats (write licensed access_log "./logs/access-log" Omitted Omitted
             []).2 =
    [{| format_type := "identity";
        key_field_names := None;
        value_fields := [mkValueField "key" DStr; mkValueField "value" DStr;
                         mkValueField "time" DInt;
                         mkValueField "diff" DInt] |}].
Proof.
  assert (Htime : ~ In "time" (column_names (tbl_columns access_log))).
  { simpl. intros [H|[H|[]]]; discriminate H. }
  assert (Hdiff : ~ In "diff" (column_names (tbl_columns access_log))).
  { simpl. intros [H|[H|[]]]; discriminate H. }
  split; [exact Htime|]. split; [exact Hdiff|]. split; [reflexivity|].
  exact (proj1 (proj2 (write_format_descriptor access_log licensed
                         "./logs/access-log" Omitted Omitted [])
                  Htime Hdiff eq_refl ∅ eq_refl)).
Defined.

(** ** Credentials *)

(** C3: for every URI beginning with [s3://], if no explicit S3 connection
    settings are supplied and ambient credentials cannot be discovered, the
    write operation fails with ConfigurationError before any storage call:
    the run ends right after the failed lookup, with no storage handle, no
    format descriptor and no sink added. *)
Theorem write_without_credentials_fails env table uri s f w :
  startswith uri "s3://" = true ->
  s = Omitted \/ s = Given None ->
  entitled env ->
  discoverAmbientCredentials env uri = None ->
  let r := write env table uri s f w in
  r = (inl ConfigurationError,
       w ++ [EvCheckEntitlements "deltalake"; EvNewFromPath uri]) /\
  storages r.2 = storages w /\
  formats r.2 = formats w /\
  sinks r.2 = sinks w.
Proof.
  intros Hs3 Habsent Hent Hnone r. subst r.
  assert (Hs : or_default None s = None) by (destruct Habsent; subst; done).
  rewrite (write_entitled _ _ _ _ _ _ Hent), Hs.
  rewrite write_storage_options_discovered by exact Hs3.
  rewrite Hnone, <- app_assoc. cbn.
  repeat split; trace_simpl; done.
Qed.

Lemma write_without_credentials_fails_witness :
  startswith "s3://bucket/path" "s3://" = true /\
  entitled licensed /\
  discoverAmbientCredentials licensed "s3://bucket/path" = None /\
  write licensed access_log "s3://bucket/path" Omitted Omitted [] =
    (inl ConfigurationError,
     [EvCheckEntitlements "deltalake"; EvNewFromPath "s3://bucket/path"]).
Proof.
  split; [reflexivity|]. split; [reflexivity|]. split; [reflexivity|].
  exact (proj1 (write_without_credentials_fails licensed access_log
                  "s3://bucket/path" Omitted Omitted []
                  eq_refl (or_introl eq_refl) eq_refl eq_refl)).
Defined.

(** C4: for every URI beginning with [s3://], explicit S3 connection settings
    given to [write] are the ones the options of the storage handle are
    derived from, and no credential lookup takes place; the lookup for the
    URI takes place exactly when the explicit settings are absent. *)
Theorem explicit_settings_override_discovery env table uri s f w :
  startswith uri "s3://" = true ->
  entitled env ->
  let r := write env table uri s f w in
  match or_default None s with
  | Some explicit =>
      discoveries r.2 = discoveries w /\
      match deltalake_storage_options_of env explicit with
      | inr opts => storages r.2 = storages w ++ [written_storage uri opts f]
      | inl e => r.1 = inl e /\ storages r.2 = storages w
      end
  | None => discoveries r.2 = discoveries w ++ [uri]
  end.
Proof.
  intros Hs3 Hent r. subst r.
  rewrite (write_entitled _ _ _ _ _ _ Hent).
  destruct (or_default None s) as [explicit|].
  - rewrite write_storage_options_explicit by exact Hs3.
    destruct (deltalake_storage_options_of env explicit) as [e|opts]; cbn.
    + repeat split; trace_simpl; done.
    + destruct (write_data_format table); cbn; split; trace_simpl; done.
  - rewrite write_storage_options_discovered by exact Hs3.
    destruct (discoverAmbientCredentials env uri) as [found|]; cbn;
      [|trace_simpl; done].
    destruct (deltalake_storage_options_of env found) as [e|opts]; cbn;
      [trace_simpl; done|].
    destruct (write_data_format table); cbn; trace_simpl; done.
Qed.

Lemma explicit_settings_override_discovery_witness :
  startswith "s3://logs/access-log/" "s3://" = true /\
  entitled licensed /\
  discoveries (write licensed access_log "s3://logs/access-log/"
                 (Given (Some eu_west_3)) Omitted []).2 = [] /\
  storages (write licensed access_log "s3://logs/access-log/"
              (Given (Some eu_west_3)) Omitted []).2 =
    [written_storage "s3://logs/access-log/"
       (options_of_settings eu_west_3) Omitted].
Proof.
  split; [reflexivity|]. split; [reflexivity|].
  exact (explicit_settings_override_discovery licensed access_log
           "s3://logs/access-log/" (Given (Some eu_west_3)) Omitted []
           eq_refl eq_refl).
Defined.

(** ** The read side *)

Lemma ingest_additions commits :
  Forall (fun ev => diff ev = 1) (ingest commits).
Proof.
  unfold ingest. induction commits as [|[t rows] commits IH]; cbn.
  - constructor.
  - apply Forall_app. split; [|exact IH].
    induction rows as [|row rows IHrows]; cbn; constructor; auto.
Qed.

(** C6: for every input that [read] accepts, the table it produces is
    append-only: the source behind the table is declared append-only, every
    physically read row becomes an addition with diff = +1, and no deletion
    is emitted on the read path. *)
Theorem read_is_append_only env uri schema mode ac pid dbg w schema' api m :
  entitled env ->
  read_schema_of env schema = inr (schema', api) ->
  connector_mode_of env (or_default "streaming" mode) = inr m ->
  let r := read env uri schema mode ac pid dbg w in
  (exists src,
     r.1 = inr {| tbl_columns := schema';
                  tbl_source := Some src;
                  tbl_debug := or_default None dbg |} /\
     tables r.2 = tables w ++ [src] /\
     append_only src = true) /\
  forall commits,
    Forall (fun ev => diff ev = 1) (ingest commits) /\
    ~ Exists (fun ev => diff ev = -1) (ingest commits).
Proof.
  intros Hent Hschema Hmode r. subst r.
  rewrite (read_entitled _ _ _ _ _ _ _ _ _ _ _ Hent Hschema Hmode). cbn.
  split.
  - eexists. split; [reflexivity|]. split; [|reflexivity].
    trace_simpl. reflexivity.
  - intros commits. pose proof (ingest_additions commits) as Hadd.
    split; [exact Hadd|].
    rewrite Exists_exists. intros (ev & Hin & Hdel).
    rewrite Forall_forall in Hadd. specialize (Hadd ev Hin). lia.
Qed.

Lemma read_is_append_only_witness :
  entitled licensed /\
  (exists src,
     (read licensed "./local-lake" KVSchema (Given "static")
        Omitted Omitted Omitted []).1 =
       inr {| tbl_columns := KVSchema;
              tbl_source := Some src;
              tbl_debug := None |} /\
     append_only src = true) /\
  Forall (fun ev => diff ev = 1)
    (ingest [(0, [{["key" := VStr "one"]}; {["key" := VStr "two"]}])]).
Proof.
  split; [reflexivity|].
  destruct (read_is_append_only licensed "./local-lake" KVSchema
              (Given "static") Omitted Omitted Omitted [] KVSchema
              {| api_key_field_names := None;
                 api_value_fields := schema_fields KVSchema |}
              Static eq_refl eq_refl eq_refl) as [(src & Ht & _ & Hao) Hev].
  split; [exists src; split; [exact Ht|exact Hao]|].
  apply Hev.
Defined.

(** ** Commit intervals *)

(** C7: when the caller omits the commit-interval parameters, the source
    [read] builds carries an autocommit interval of 1500 ms and the storage
    handle [write] builds carries a minimum commit interval of 60000 ms;
    a None given for either reaches the engine as None, for which a batch
    is due at every boundary, however little time has elapsed. *)
Theorem commit_interval_defaults env :
  entitled env ->
  (forall uri schema mode pid dbg w schema' api m,
     read_schema_of env schema = inr (schema', api) ->
     connector_mode_of env (or_default "streaming" mode) = inr m ->
     (exists src,
        tables (read env uri schema mode Omitted pid dbg w).2 =
          tables w ++ [src] /\
        commit_duration_ms (data_source_options src) = Some 1500) /\
     (exists src,
        tables (read env uri schema mode (Given None) pid dbg w).2 =
          tables w ++ [src] /\
        commit_duration_ms (data_source_options src) = None /\
        forall elapsed,
          commit_due (commit_duration_ms (data_source_options src)) elapsed
          = true)) /\
  (forall table uri s w opts,
     (write_storage_options env uri (or_default None s) []).1 = inr opts ->
     (exists ds,
        storages (write env table uri s Omitted w).2 = storages w ++ [ds] /\
        min_commit_frequency ds = Some 60000) /\
     (exists ds,
        storages (write env table uri s (Given None) w).2 =
          storages w ++ [ds] /\
        min_commit_frequency ds = None /\
        forall elapsed,
          commit_due (min_commit_frequency ds) elapsed = true)).
Proof.
  intros Hent. split.
  - intros uri schema mode pid dbg w schema' api m Hschema Hmode.
    rewrite !(read_entitled _ _ _ _ _ _ _ _ _ _ _ Hent Hschema Hmode). cbn.
    split; eexists; (split; [trace_simpl; reflexivity|]); cbn; auto.
  - intros table uri s w opts Hopts.
    rewrite !(write_entitled _ _ _ _ _ _ Hent).
    destruct (write_storage_options_frame env uri (or_default None s)
                (w ++ [EvCheckEntitlements "deltalake"]))
      as (Hrun & Hst & _).
    rewrite Hrun, Hopts.
    split; eexists;
      (split;
       [destruct (write_data_format table); cbn [fst snd]; trace_simpl;
        rewrite Hst; trace_simpl; reflexivity|]); cbn; auto.
Qed.

Lemma commit_interval_defaults_witness :
  entitled licensed /\
  (exists src,
     tables (read licensed "./local-lake" KVSchema (Given "static")
               Omitted Omitted Omitted []).2 = [src] /\
     commit_duration_ms (data_source_options src) = Some 1500) /\
  (exists ds,
     storages (write licensed access_log "./logs/access-log"
                 Omitted Omitted []).2 = [ds] /\
     min_commit_frequency ds = Some 60000).
Proof.
  split; [reflexivity|].
  destruct (commit_interval_defaults licensed eq_refl) as [Hread Hwrite].
  split.
  - exact (proj1 (Hread "./local-lake" KVSchema (Given "static")
                    Omitted Omitted [] KVSchema
                    {| api_key_field_names := None;
                       api_value_fields := schema_fields KVSchema |}
                    Static eq_refl eq_refl)).
  - exact (proj1 (Hwrite access_log "./logs/access-log" Omitted [] ∅
                    eq_refl)).
Defined.

(** ** Which inputs the storage handle depends on *)


(** The storage handles a run of [write] adds are settled by the
    environment, the URI, the settings and the commit frequency. *)
Lemma write_storages env table uri s f w :
  storages (write env table uri s f w).2 =
    storages w ++
    match check_entitlements env "deltalake",
          (write_storage_options env uri (or_default None s) []).1 with
    | inr _, inr opts => [written_storage uri opts f]
    | _, _ => []
    end.
Proof.
  destruct (check_entitlements env "deltalake") as [e|[]] eqn:Hent.
  - rewrite (write_not_entitled _ _ _ _ _ _ _ Hent). trace_simpl. done.
  - rewrite (write_entitled _ _ _ _ _ _ Hent).
    destruct (write_storage_options_frame env uri (or_default None s)
                (w ++ [EvCheckEntitlements "deltalake"])) as (-> & Hst & _).
    destruct (write_storage_options _ _ _ []) as [[e|opts] w1];
      cbn [fst snd] in *.
    + trace_simpl. rewrite Hst. trace_simpl. done.
    + destruct (write_data_format table); cbn [fst snd];
        trace_simpl; rewrite Hst; trace_simpl; done.
Qed.




(** C9: for every URI that does not begin with [s3://], [write] passes an
    empty options map to the storage, and the connection settings have no
    effect: two calls that differ only in them run identically and build
    the same storage configuration. *)
Theorem filesystem_uri_ignores_settings env table uri f w :
  startswith uri "s3://" = false ->
  (forall s, write_storage_options env uri s w = (inr ∅, w)) /\
  (forall s, entitled env ->
     storages (write env table uri s f w).2 =
       storages w ++ [written_storage uri ∅ f]) /\
  (forall s1 s2, write env table uri s1 f w = write env table uri s2 f w).
Proof.
  intros Hfs.
  assert (Hopts : forall s w0, write_storage_options env uri s w0 = (inr ∅, w0))
    by (intros; now apply write_storage_options_filesystem).
  split; [intros; apply Hopts|]. split.
  - intros s Hent. rewrite write_storages, Hent, Hopts. reflexivity.
  - intros s1 s2. unfold write, mbind, M_bind.
    destruct (_check_entitlements env "deltalake" w) as [[e|[]] w1];
      [reflexivity|].
    now rewrite !Hopts.
Qed.

Lemma filesystem_uri_ignores_settings_witness :
  startswith "s3a://logs/access-log/" "s3://" = false /\
  write licensed access_log "s3a://logs/access-log/"
    (Given (Some eu_west_3)) Omitted [] =
  write licensed access_log "s3a://logs/access-log/" Omitted Omitted [].
Proof.
  split; [reflexivity|].
  exact (proj2 (proj2 (filesystem_uri_ignores_settings licensed access_log
                         "s3a://logs/access-log/" Omitted [] eq_refl))
           (Given (Some eu_west_3)) Omitted).
Defined.

(** ** The entitlement gate *)

(** C10: both [read] and [write] perform the deltalake entitlement check
    before anything else, and if the check raises, the operation stops with
    that exception: no storage handle is constructed, no format descriptor
    is built, no sink is registered and no table is produced. *)
Theorem entitlement_checked_first env :
  (forall table uri s f w,
     exists rest,
       (write env table uri s f w).2 =
         w ++ EvCheckEntitlements "deltalake" :: rest) /\
  (forall uri schema mode ac pid dbg w,
     exists rest,
       (read env uri schema mode ac pid dbg w).2 =
         w ++ EvCheckEntitlements "deltalake" :: rest) /\
  (forall e,
     check_entitlements env "deltalake" = inl e ->
     (forall table uri s f w,
        let r := write env table uri s f w in
        r.1 = inl e /\ storages r.2 = storages w /\
        formats r.2 = formats w /\ sinks r.2 = sinks w) /\
     (forall uri schema mode ac pid dbg w,
        let r := read env uri schema mode ac pid dbg w in
        r.1 = inl e /\ storages r.2 = storages w /\
        formats r.2 = formats w /\ tables r.2 = tables w)).
Proof.
  split; [intros; apply write_checks_first|].
  split; [intros; apply read_checks_first|].
  intros e Hent. split.
  - intros table uri s f w r. subst r.
    rewrite (write_not_entitled _ _ _ _ _ _ _ Hent).
    repeat split; trace_simpl; done.
  - intros uri schema mode ac pid dbg w r. subst r.
    rewrite (read_not_entitled _ _ _ _ _ _ _ _ _ Hent).
    repeat split; trace_simpl; done.
Qed.

Lemma entitlement_checked_first_witness :
  check_entitlements unlicensed "deltalake" =
    inl (EntitlementError "deltalake") /\
  write unlicensed access_log "s3://logs/access-log/"
    (Given (Some eu_west_3)) Omitted [] =
    (inl (EntitlementError "deltalake"), [EvCheckEntitlements "deltalake"]) /\
  (read unlicensed "./local-lake" KVSchema Omitted Omitted Omitted Omitted
     []).1 = inl (EntitlementError "deltalake").
Proof.
  split; [reflexivity|].
  destruct (proj2 (proj2 (entitlement_checked_first unlicensed))
              (EntitlementError "deltalake") eq_refl) as [Hwrite Hread].
  split; [reflexivity|].
  exact (proj1 (Hread "./local-lake" KVSchema Omitted Omitted Omitted Omitted
                  [])).
Defined.

(** * Further properties of [read] and [write] *)

Lemma entitlement_checks_app (w1 w2 : World) :
  entitlement_checks (w1 ++ w2) =
    entitlement_checks w1 ++ entitlement_checks w2.
Proof. apply omap_app. Qed.

Lemma mode_queries_app (w1 w2 : World) :
  mode_queries (w1 ++ w2) = mode_queries w1 ++ mode_queries w2.
Proof. apply omap_app. Qed.

Lemma option_requests_app (w1 w2 : World) :
  option_requests (w1 ++ w2) = option_requests w1 ++ option_requests w2.
Proof. apply omap_app. Qed.

Ltac views_simpl :=
  cbn [fst snd];
  rewrite ?storages_app, ?formats_app, ?sinks_app, ?tables_app,
    ?discoveries_app, ?entitlement_checks_app, ?mode_queries_app,
    ?option_requests_app;
  cbn; rewrite ?app_nil_r, <- ?app_assoc; cbn.

(** ** The prefix test *)

(** [s.startswith(p)] holds exactly when [s] is [p] followed by something,
    possibly by nothing. *)
Lemma startswith_append s p :
  startswith s p = true <-> exists rest, s = (p ++ rest)%string.
Proof.
  unfold startswith. revert s.
  induction p as [|a p IH]; intros s.
  - split; [intros _; exists s; reflexivity|].
    intros _. destruct s; reflexivity.
  - destruct s as [|b s]; cbn.
    + split; [discriminate|]. intros (rest & Hrest). discriminate Hrest.
    + destruct (Ascii.ascii_dec a b) as [->|Hne].
      * rewrite IH. split; intros (rest & Hrest); exists rest.
        -- now rewrite Hrest.
        -- now injection Hrest.
      * split; [discriminate|]. intros (rest & Hrest).
        injection Hrest as Hab _. congruence.
Qed.

(** A run of [read], case by case. *)
Lemma read_run env uri schema mode ac pid dbg w :
  read env uri schema mode ac pid dbg w =
    let mode' := or_default "streaming" mode in
    match check_entitlements env "deltalake" with
    | inl e => (inl e, w ++ [EvCheckEntitlements "deltalake"])
    | inr _ =>
        match read_schema_of env schema with
        | inl e => (inl e, w ++ [EvCheckEntitlements "deltalake";
                                 EvReadSchema schema])
        | inr (schema', api) =>
            match connector_mode_of env mode' with
            | inl e => (inl e, w ++ [EvCheckEntitlements "deltalake";
                                     EvReadSchema schema;
                                     EvInternalConnectorMode mode'])
            | inr m =>
                let src := read_source uri schema' api m ac pid in
                (inr (read_table uri schema' api m ac pid dbg),
                 w ++ [EvCheckEntitlements "deltalake";
                       EvReadSchema schema;
                       EvInternalConnectorMode mode';
                       EvDataStorage (datastorage src);
                       EvDataFormat (dataformat src);
                       EvTableFromDatasource src (or_default None dbg)])
            end
        end
    end.
Proof.
  cbn zeta.
  destruct (check_entitlements env "deltalake") as [e|[]] eqn:Hent.
  - now apply read_not_entitled.
  - destruct (read_schema_of env schema) as [e|[schema' api]] eqn:Hschema.
    + run. rewrite Hent, Hschema. cbn. now rewrite <- app_assoc.
    + destruct (connector_mode_of env _) as [e|m] eqn:Hmode.
      * run. rewrite Hent, Hschema. cbn. rewrite Hmode. cbn.
        now rewrite <- !app_assoc.
      * now apply read_entitled.
Qed.

(** A run of [write], case by case. *)
Lemma write_run env table uri s f w :
  write env table uri s f w =
    match check_entitlements env "deltalake" with
    | inl e => (inl e, w ++ [EvCheckEntitlements "deltalake"])
    | inr _ =>
        let r0 := write_storage_options env uri (or_default None s) [] in
        match r0.1 with
        | inl e => (inl e, w ++ [EvCheckEntitlements "deltalake"] ++ r0.2)
        | inr opts =>
            let ds := written_storage uri opts f in
            match write_data_format table with
            | inl e => (inl e,
                        w ++ [EvCheckEntitlements "deltalake"] ++ r0.2
                          ++ [EvDataStorage ds])
            | inr df => (inr tt,
                         w ++ [EvCheckEntitlements "deltalake"] ++ r0.2
                           ++ [EvDataStorage ds; EvDataFormat df;
                               EvTableTo table (written_sink uri opts f df)])
            end
        end
    end.
Proof.
  destruct (check_entitlements env "deltalake") as [e|[]] eqn:Hent.
  - now apply write_not_entitled.
  - rewrite (write_entitled _ _ _ _ _ _ Hent). cbn zeta.
    destruct (write_storage_options_frame env uri (or_default None s)
                (w ++ [EvCheckEntitlements "deltalake"])) as (-> & _).
    destruct (write_storage_options _ _ _ []) as [[e|opts] w1];
      cbn [fst snd].
    + now rewrite <- app_assoc.
    + destruct (write_data_format table); now rewrite <- !app_assoc.
Qed.

(** What [write_storage_options] leaves in the trace: no entitlement check,
    no mode query, no table, at most one credential lookup and at most one
    request for options. *)
Lemma write_storage_options_views env uri s :
  let rest := (write_storage_options env uri s []).2 in
  storages rest = [] /\ formats rest = [] /\ sinks rest = [] /\
  tables rest = [] /\ entitlement_checks rest = [] /\ mode_queries rest = [].
Proof.
  cbn zeta. destruct (startswith uri S3_URI_PREFIX) eqn:Hk.
  - destruct s as [s|].
    + rewrite write_storage_options_explicit by done. done.
    + rewrite write_storage_options_discovered by done.
      destruct (discoverAmbientCredentials env uri); done.
  - rewrite write_storage_options_filesystem by done. done.
Qed.



(** X2: a URI shorter than the five characters of the prefix, the empty URI
    included, is taken for the filesystem, and [write] passes it an empty
    options map without any call. *)
Theorem short_uri_is_filesystem uri :
  (String.length uri < 5)%nat ->
  storage_kind uri = Filesystem /\
  forall env s w, write_storage_options env uri s w = (inr ∅, w).
Proof.
  intros Hshort.
  assert (Hfs : startswith uri S3_URI_PREFIX = false).
  { destruct (startswith uri S3_URI_PREFIX) eqn:Hk; [|reflexivity].
    apply startswith_append in Hk as (rest & ->).
    unfold S3_URI_PREFIX in Hshort.
    cbv [String.append String.length] in Hshort. lia. }
  split.
  - unfold storage_kind. now rewrite Hfs.
  - intros. now apply write_storage_options_filesystem.
Qed.

Lemma short_uri_is_filesystem_witness :
  (String.length "" < 5)%nat /\
  storage_kind "" = Filesystem /\
  write_storage_options licensed "" (Some eu_west_3) [] = (inr ∅, []).
Proof.
  assert (Hshort : (String.length "" < 5)%nat) by (cbn; lia).
  split; [exact Hshort|].
  destruct (short_uri_is_filesystem "" Hshort) as [Hkind Hopts].
  split; [exact Hkind|apply Hopts].
Defined.

(** ** When [read] returns and when it refuses a mode *)

(** X3: a [read] that returns has passed the entitlement check and had its
    schema and its mode accepted, and it has built exactly one storage
    handle and one format descriptor and handed exactly one source to
    [table_from_datasource]: the append-only source named [deltalake] that
    holds that very handle and that very descriptor; it registers no
    sink. *)
Theorem read_builds_one_source env uri schema mode ac pid dbg w t :
  (read env uri schema mode ac pid dbg w).1 = inr t ->
  let r := read env uri schema mode ac pid dbg w in
  entitled env /\
  exists schema' api m,
    read_schema_of env schema = inr (schema', api) /\
    connector_mode_of env (or_default "streaming" mode) = inr m /\
    let src := read_source uri schema' api m ac pid in
    storages r.2 = storages w ++ [datastorage src] /\
    formats r.2 = formats w ++ [dataformat src] /\
    tables r.2 = tables w ++ [src] /\
    sinks r.2 = sinks w.
Proof.
  cbn zeta. rewrite read_run. cbn zeta. unfold entitled.
  destruct (check_entitlements env "deltalake") as [e|[]]; [discriminate|].
  destruct (read_schema_of env schema) as [e|[schema' api]]; [discriminate|].
  destruct (connector_mode_of env _) as [e|m]; [discriminate|].
  intros _. split; [reflexivity|]. exists schema', api, m.
  repeat split; views_simpl; reflexivity.
Qed.

Lemma read_builds_one_source_witness :
  (read licensed "./local-lake" KVSchema (Given "static") Omitted Omitted
     Omitted []).1 =
    inr (read_table "./local-lake" KVSchema
           {| api_key_field_names := None;
              api_value_fields := schema_fields KVSchema |}
           Static Omitted Omitted Omitted) /\
  entitled licensed.
Proof.
  split; [reflexivity|].
  exact (proj1 (read_builds_one_source licensed "./local-lake" KVSchema
                  (Given "static") Omitted Omitted Omitted [] _ eq_refl)).
Defined.

(** X4: when the entitlement check passes and the schema is accepted, a mode
    that [internal_connector_mode] refuses makes [read] raise that refusal
    before any storage handle, format descriptor or table is built. *)
Theorem read_refuses_mode_before_storage env uri schema mode ac pid dbg w
    schema' api e :
  entitled env ->
  read_schema_of env schema = inr (schema', api) ->
  connector_mode_of env (or_default "streaming" mode) = inl e ->
  let r := read env uri schema mode ac pid dbg w in
  r.1 = inl e /\
  storages r.2 = storages w /\ formats r.2 = formats w /\
  tables r.2 = tables w.
Proof.
  intros Hent Hschema Hmode. cbn zeta. rewrite read_run. cbn zeta.
  rewrite Hent, Hschema, Hmode.
  repeat split; views_simpl; reflexivity.
Qed.

Lemma read_refuses_mode_before_storage_witness :
  entitled licensed /\
  (read licensed "./local-lake" KVSchema (Given "batch") Omitted Omitted
     Omitted []).1 = inl (ValueError "batch") /\
  storages (read licensed "./local-lake" KVSchema (Given "batch") Omitted
              Omitted Omitted []).2 = [].
Proof.
  split; [reflexivity|].
  destruct (read_refuses_mode_before_storage licensed "./local-lake" KVSchema
              (Given "batch") Omitted Omitted Omitted [] KVSchema
              {| api_key_field_names := None;
                 api_value_fields := schema_fields KVSchema |}
              (ValueError "batch") eq_refl eq_refl eq_refl)
    as (Hraise & Hst & _).
  split; [exact Hraise|exact Hst].
Defined.

(** X6: [read] never looks up credentials, never asks any settings for
    storage options and never registers a sink, whatever the URI is; the
    storage handle it builds, if any, carries neither options nor a commit
    frequency, also for a URI that begins with [s3://]. *)
Theorem read_ignores_credentials env uri schema mode ac pid dbg w :
  let r := read env uri schema mode ac pid dbg w in
  discoveries r.2 = discoveries w /\
  option_requests r.2 = option_requests w /\
  sinks r.2 = sinks w /\
  exists built,
    storages r.2 = storages w ++ built /\
    Forall (fun ds => storage_options ds = None /\
                      min_commit_frequency ds = None) built.
Proof.
  cbn zeta. rewrite read_run. cbn zeta.
  destruct (check_entitlements env "deltalake") as [e|[]];
    [repeat split; try (views_simpl; done);
     exists []; split; [views_simpl; done|constructor]|].
  destruct (read_schema_of env schema) as [e|[schema' api]];
    [repeat split; try (views_simpl; done);
     exists []; split; [views_simpl; done|constructor]|].
  destruct (connector_mode_of env _) as [e|m];
    [repeat split; try (views_simpl; done);
     exists []; split; [views_simpl; done|constructor]|].
  repeat split; try (views_simpl; done).
  eexists [_]. split; [views_simpl; reflexivity|].
  constructor; [split; reflexivity|constructor].
Qed.

(** X8: when the caller leaves the mode out, the mode [read] has checked is
    [streaming], and the handle it builds carries the mode the check
    answered, the URI as it was given and the persistent id as it was
    given. *)
Theorem read_mode_default env uri schema ac pid dbg w schema' api m :
  entitled env ->
  read_schema_of env schema = inr (schema', api) ->
  connector_mode_of env "streaming" = inr m ->
  let r := read env uri schema Omitted ac pid dbg w in
  mode_queries r.2 = mode_queries w ++ ["streaming"] /\
  exists ds,
    storages r.2 = storages w ++ [ds] /\
    mode ds = Some m /\ path ds = uri /\
    persistent_id ds = or_default None pid.
Proof.
  intros Hent Hschema Hmode. cbn zeta. rewrite read_run. cbn zeta.
  rewrite Hent, Hschema. cbn [or_default]. rewrite Hmode.
  split; [views_simpl; reflexivity|].
  eexists. split; [views_simpl; reflexivity|]. repeat split; reflexivity.
Qed.

Lemma read_mode_default_witness :
  entitled licensed /\
  mode_queries (read licensed "./local-lake" KVSchema Omitted Omitted
                  (Given (Some "kv")) Omitted []).2 = ["streaming"] /\
  storages (read licensed "./local-lake" KVSchema Omitted Omitted
              (Given (Some "kv")) Omitted []).2 =
    [read_storage "./local-lake" Streaming (Given (Some "kv"))].
Proof.
  split; [reflexivity|].
  destruct (read_mode_default licensed "./local-lake" KVSchema Omitted
              (Given (Some "kv")) Omitted [] KVSchema
              {| api_key_field_names := None;
                 api_value_fields := schema_fields KVSchema |}
              Streaming eq_refl eq_refl eq_refl) as [Hq _].
  split; [exact Hq|reflexivity].
Defined.

(** ** When [write] returns and when it raises *)

(** X9: a [write] that returns has built exactly one storage handle and one
    format descriptor and has registered exactly one sink: the sink drains
    the table that was passed, is named [deltalake] and holds that very
    handle and that very descriptor; no table is produced. *)
Theorem write_registers_one_sink env table uri s f w :
  (write env table uri s f w).1 = inr tt ->
  let r := write env table uri s f w in
  exists opts df,
    (write_storage_options env uri (or_default None s) []).1 = inr opts /\
    write_data_format table = inr df /\
    storages r.2 = storages w ++ [written_storage uri opts f] /\
    formats r.2 = formats w ++ [df] /\
    sinks r.2 = sinks w ++ [(table, written_sink uri opts f df)] /\
    tables r.2 = tables w.
Proof.
  cbn zeta. rewrite write_run.
  destruct (check_entitlements env "deltalake") as [e|[]]; [discriminate|].
  cbn zeta.
  destruct (write_storage_options_views env uri (or_default None s))
    as (Hst & Hfm & Hsk & Htb & _).
  destruct (write_storage_options _ _ _ []) as [[e|opts] w1];
    cbn [fst snd] in *; [discriminate|].
  destruct (write_data_format table) as [e|df]; [discriminate|].
  intros _. exists opts, df.
  repeat split;
    views_simpl; rewrite ?Hst, ?Hfm, ?Hsk, ?Htb; views_simpl; reflexivity.
Qed.

Lemma write_registers_one_sink_witness :
  (write licensed access_log "./logs/access-log" Omitted Omitted []).1 =
    inr tt /\
  exists opts df,
    sinks (write licensed access_log "./logs/access-log" Omitted Omitted
             []).2 =
      [(access_log, written_sink "./logs/access-log" opts Omitted df)].
Proof.
  split; [reflexivity|].
  destruct (write_registers_one_sink licensed access_log "./logs/access-log"
              Omitted Omitted [] eq_refl)
    as (opts & df & _ & _ & _ & _ & Hsinks & _).
  exists opts, df. exact Hsinks.
Defined.

(** X10: a [write] that raises has registered no sink, built no format
    descriptor and produced no table, and it has built at most one storage
    handle. *)
Theorem failing_write_registers_no_sink env table uri s f w e :
  (write env table uri s f w).1 = inl e ->
  let r := write env table uri s f w in
  sinks r.2 = sinks w /\ formats r.2 = formats w /\ tables r.2 = tables w /\
  exists built,
    storages r.2 = storages w ++ built /\ (length built <= 1)%nat.
Proof.
  cbn zeta. rewrite write_run.
  destruct (write_storage_options_views env uri (or_default None s))
    as (Hst & Hfm & Hsk & Htb & _).
  destruct (check_entitlements env "deltalake") as [e0|[]].
  { intros _. repeat split; try (views_simpl; done).
    exists []. split; [views_simpl; done|cbn; lia]. }
  cbn zeta.
  destruct (write_storage_options _ _ _ []) as [[e0|opts] w1];
    cbn [fst snd] in *.
  { intros _.
    repeat split;
      try (views_simpl; rewrite ?Hst, ?Hfm, ?Hsk, ?Htb; views_simpl; done).
    exists []. split; [views_simpl; rewrite Hst; views_simpl; done|cbn; lia]. }
  destruct (write_data_format table) as [e0|df]; [|discriminate].
  intros _.
  repeat split;
    try (views_simpl; rewrite ?Hst, ?Hfm, ?Hsk, ?Htb; views_simpl; done).
  eexists [_]. split; [|cbn; lia].
  views_simpl; rewrite Hst; views_simpl; reflexivity.
Qed.

Lemma failing_write_registers_no_sink_witness :
  (write licensed access_log "s3://bucket/path" Omitted Omitted []).1 =
    inl ConfigurationError /\
  sinks (write licensed access_log "s3://bucket/path" Omitted Omitted []).2 =
    [].
Proof.
  split; [reflexivity|].
  exact (proj1 (failing_write_registers_no_sink licensed access_log
                  "s3://bucket/path" Omitted Omitted [] ConfigurationError
                  eq_refl)).
Defined.

(** ** One call after another *)

(** X11: every call of [read] and every call of [write] checks the
    entitlement exactly once, for the feature [deltalake], whether the call
    returns or raises. *)
Theorem entitlement_checked_once env :
  (forall table uri s f w,
     entitlement_checks (write env table uri s f w).2 =
       entitlement_checks w ++ ["deltalake"]) /\
  (forall uri schema mode ac pid dbg w,
     entitlement_checks (read env uri schema mode ac pid dbg w).2 =
       entitlement_checks w ++ ["deltalake"]).
Proof.
  split.
  - intros table uri s f w. rewrite write_run.
    destruct (write_storage_options_views env uri (or_default None s))
      as (_ & _ & _ & _ & Hck & _).
    destruct (check_entitlements env "deltalake") as [e|[]];
      [views_simpl; done|]. cbn zeta.
    destruct (write_storage_options _ _ _ []) as [[e|opts] w1];
      cbn [fst snd] in *; [views_simpl; rewrite Hck; views_simpl; done|].
    destruct (write_data_format table);
      views_simpl; rewrite Hck; views_simpl; reflexivity.
  - intros uri schema mode ac pid dbg w. rewrite read_run. cbn zeta.
    destruct (check_entitlements env "deltalake") as [e|[]];
      [views_simpl; done|].
    destruct (read_schema_of env schema) as [e|[schema' api]];
      [views_simpl; done|].
    destruct (connector_mode_of env _); views_simpl; reflexivity.
Qed.

(** X12: when writing a table to a URI and then reading from the same URI
    both return, exactly two storage handles were built, both with the URI
    as their path: the one of [write], which carries the options resolved
    for the URI, and then the one of [read], which carries no options at
    all; one sink was registered and one source turned into a table. *)
Theorem write_then_read_same_lake env table uri s f schema mode ac pid dbg w
    t :
  ((write env table uri s f ;;
    read env uri schema mode ac pid dbg) w).1 = inr t ->
  let r := (write env table uri s f ;;
            read env uri schema mode ac pid dbg) w in
  exists opts built,
    (write_storage_options env uri (or_default None s) []).1 = inr opts /\
    storages r.2 = storages w ++ built /\
    map path built = [uri; uri] /\
    map storage_options built = [Some opts; None] /\
    length (sinks r.2) = S (length (sinks w)) /\
    length (tables r.2) = S (length (tables w)).
Proof.
  cbn zeta. unfold mbind, M_bind. rewrite write_run.
  destruct (write_storage_options_views env uri (or_default None s))
    as (Hst & Hfm & Hsk & Htb & _).
  destruct (check_entitlements env "deltalake") as [e|[]] eqn:Hent;
    [discriminate|]. cbn zeta.
  destruct (write_storage_options _ _ _ []) as [[e|opts] w1];
    cbn [fst snd] in *; [discriminate|].
  destruct (write_data_format table) as [e|df]; [discriminate|].
  rewrite read_run. cbn zeta. rewrite Hent.
  destruct (read_schema_of env schema) as [e|[schema' api]]; [discriminate|].
  destruct (connector_mode_of env _) as [e|m]; [discriminate|].
  intros _. exists opts. eexists [_; _].
  split; [reflexivity|].
  split; [views_simpl; rewrite Hst; views_simpl; reflexivity|].
  split; [reflexivity|]. split; [reflexivity|].
  split; views_simpl; rewrite ?Hsk, ?Htb; views_simpl;
    rewrite length_app; cbn; lia.
Qed.

Lemma write_then_read_same_lake_witness :
  ((write licensed access_log "s3://logs/access-log/"
      (Given (Some eu_west_3)) Omitted ;;
    read licensed "s3://logs/access-log/" KVSchema (Given "static")
      Omitted Omitted Omitted) []).1 =
    inr (read_table "s3://logs/access-log/" KVSchema
           {| api_key_field_names := None;
              api_value_fields := schema_fields KVSchema |}
           Static Omitted Omitted Omitted) /\
  exists opts built,
    storages ((write licensed access_log "s3://logs/access-log/"
                 (Given (Some eu_west_3)) Omitted ;;
               read licensed "s3://logs/access-log/" KVSchema
                 (Given "static") Omitted Omitted Omitted) []).2 = built /\
    map storage_options built = [Some opts; None].
Proof.
  split; [reflexivity|].
  destruct (write_then_read_same_lake licensed access_log
              "s3://logs/access-log/" (Given (Some eu_west_3)) Omitted
              KVSchema (Given "static") Omitted Omitted Omitted [] _
              eq_refl)
    as (opts & built & _ & Hst & _ & Hopts & _).
  exists opts, built. split; [exact Hst|exact Hopts].
Defined.

(** ** The documented prefixes *)

(** No URI begins with both [s3://] and [s3a://]. *)
Lemma s3_and_s3a_exclusive uri :
  startswith uri "s3://" = true -> startswith uri "s3a://" = false.
Proof.
  intros Hs3. destruct (startswith uri "s3a://") eqn:Hs3a; [|reflexivity].
  apply startswith_append in Hs3 as (rest & ->).
  apply startswith_append in Hs3a as (rest' & Heq).
  discriminate Heq.
Qed.

(** X14: the kind [write] settles on differs from the kind its docstring
    announces exactly for the URIs that begin with [s3a://]; on every other
    URI the code and the docstring agree. *)
Theorem kind_differs_iff_s3a uri :
  storage_kind uri <> documented_storage_kind uri <->
  startswith uri "s3a://" = true.
Proof.
  unfold storage_kind, documented_storage_kind, S3_URI_PREFIX.
  pose proof (s3_and_s3a_exclusive uri) as Hex.
  destruct (startswith uri "s3://"), (startswith uri "s3a://"); cbn.
  - specialize (Hex eq_refl). discriminate Hex.
  - split; [intros H; now contradict H|discriminate].
  - split; [reflexivity|discriminate].
  - split; [intros H; now contradict H|discriminate].
Qed.

Lemma kind_differs_iff_s3a_witness :
  storage_kind "s3a://logs/access-log/" <>
    documented_storage_kind "s3a://logs/access-log/" /\
  startswith "s3://logs/access-log/" "s3a://" = false.
Proof.
  split.
  - apply (proj2 (kind_differs_iff_s3a "s3a://logs/access-log/")).
    reflexivity.
  - reflexivity.
Defined.
